(** * Mergington High School activities API: the signup registry

    A shallow embedding of [src/app.py].  The module keeps one global
    dictionary, [activities], and exposes three routes over it: [root],
    [get_activities] and [signup_for_activity].  The dictionary is a
    finite map from activity names to activity entries; the handlers are
    written in a small state-and-exception monad whose state is that
    dictionary, so that a [raise] leaves whatever was mutated before it in
    place, as in Python. *)

From Stdlib Require Import ZArith.
From stdpp Require Import gmap strings list fin_maps.

Local Open Scope Z_scope.
Local Open Scope string_scope.
Local Open Scope list_scope.

(** ** Data model *)

(** One value of the [activities] dictionary.  In the source it is itself a
    dict with the four fixed keys below. *)
Record Activity : Type := mkActivity {
  description : string;
  schedule : string;
  max_participants : Z;
  participants : list string;
}.

Abbreviation Registry := (gmap string Activity).

(** What a handler can raise: FastAPI's [HTTPException], and the [KeyError]
    of a dictionary subscript on a missing key. *)
Inductive Exception : Type :=
  | HTTPException (status_code : Z) (detail : string)
  | KeyError (key : string).

(** The body of a successful signup, [{"message": ...}]. *)
Record SignupResponse : Type := mkSignupResponse { message : string }.

(** [RedirectResponse(url=...)]. *)
Record RedirectResponse : Type := mkRedirectResponse { url : string }.

(** ** Handlers as state transformers that may raise *)

Module Handler.

Definition t (A : Type) : Type := Registry → (Exception + A) * Registry.

Definition ret {A} (a : A) : t A := λ acts, (inr a, acts).

Definition bind {A B} (m : t A) (k : A → t B) : t B :=
  λ acts,
    match m acts with
    | (inl e, acts') => (inl e, acts')
    | (inr a, acts') => k a acts'
    end.

Definition raise {A} (e : Exception) : t A := λ acts, (inl e, acts).

(** Reading the module-level name [activities]. *)
Definition global : t Registry := λ acts, (inr acts, acts).

(** In-place mutation of the object bound to [activities]. *)
Definition mutate (f : Registry → Registry) : t unit := λ acts, (inr tt, f acts).

Definition result {A} (m : t A) (acts : Registry) : Exception + A := fst (m acts).
Definition final {A} (m : t A) (acts : Registry) : Registry := snd (m acts).

End Handler.

(** The handlers below use stdpp's monadic notation, [x ← m; k] and
    [m;; k], at [Handler.t]. *)
#[global] Instance handler_ret : MRet Handler.t := @Handler.ret.
#[global] Instance handler_bind : MBind Handler.t :=
  λ A B k m, Handler.bind m k.

(** ** The seed data *)

(** The dictionary literal of the source.  Every entry is built from its own
    dict literal and its own list literal, so no two activities share a
    participant list, and no handler ever stores one entry's list in
    another: an entry can be modelled by its value.  The order in which a
    Python dict keeps its keys is not modelled; no handler depends on it. *)

Definition activities : Registry :=
  <["Chess Club" := mkActivity
      "Learn strategies and compete in chess tournaments"
      "Fridays, 3:30 PM - 5:00 PM"
      12 ["michael@mergington.edu"; "daniel@mergington.edu"]]>
  (<["Programming Class" := mkActivity
      "Learn programming fundamentals and build software projects"
      "Tuesdays and Thursdays, 3:30 PM - 4:30 PM"
      20 ["emma@mergington.edu"; "sophia@mergington.edu"]]>
  (<["Gym Class" := mkActivity
      "Physical education and sports activities"
      "Mondays, Wednesdays, Fridays, 2:00 PM - 3:00 PM"
      30 ["john@mergington.edu"; "olivia@mergington.edu"]]>
  (<["Soccer Practice" := mkActivity
      "Team drills, conditioning, and scrimmages"
      "Tuesdays and Thursdays, 4:00 PM - 5:30 PM"
      22 []]>
  (<["Track & Field" := mkActivity
      "Sprint, distance, and field event training"
      "Mondays and Wednesdays, 3:30 PM - 5:00 PM"
      28 []]>
  (<["Drama Club" := mkActivity
      "Acting workshops and preparing stage performances"
      "Wednesdays, 3:30 PM - 5:00 PM"
      18 []]>
  (<["Art Studio" := mkActivity
      "Drawing, painting, and mixed-media projects"
      "Mondays, 3:30 PM - 5:00 PM"
      16 []]>
  (<["Debate Team" := mkActivity
      "Practice structured debates and public speaking"
      "Thursdays, 3:30 PM - 5:00 PM"
      14 []]>
  (<["Math Olympiad" := mkActivity
      "Problem-solving sessions and competition prep"
      "Tuesdays, 3:30 PM - 4:45 PM"
      20 []]> ∅)))))))).

(** ** Dictionary and list primitives used by the handlers *)

(** [activities[key]]: the entry, or [KeyError]. *)
Definition getitem (key : string) : Handler.t Activity :=
  acts ← Handler.global;
  match acts !! key with
  | Some activity => mret activity
  | None => Handler.raise (KeyError key)
  end.

(** [activity["participants"].append(email)], where [activity] is the object
    stored under [key]: the entry is mutated in place, the list grows at its
    end, and nothing else of the dictionary is touched. *)
Definition append_participant (email : string) (activity : Activity) : Activity :=
  mkActivity (description activity) (schedule activity)
             (max_participants activity) (participants activity ++ [email]).

Definition participants_append (key email : string) : Handler.t unit :=
  Handler.mutate (alter (append_participant email) key).

(** The f-string [f"Signed up {email} for {activity_name}"]. *)
Definition signup_message (email activity_name : string) : string :=
  String.append "Signed up "
    (String.append email (String.append " for " activity_name)).

(** ** Routes *)

Definition root : Handler.t RedirectResponse :=
  mret (mkRedirectResponse "/static/index.html").

Definition get_activities : Handler.t Registry :=
  Handler.global.

Definition signup_for_activity (activity_name email : string)
  : Handler.t SignupResponse :=
  acts ← Handler.global;
  if decide (acts !! activity_name = None)
  then Handler.raise (HTTPException 404 "Activity not found")
  else
    activity ← getitem activity_name;
    if decide (email ∈ participants activity)
    then Handler.raise (HTTPException 400 "Student is already signed up")
    else
      if decide (Z.of_nat (length (participants activity)) >= max_participants activity)
      then Handler.raise (HTTPException 400 "Activity is full")
      else
        participants_append activity_name email;;
        mret (mkSignupResponse (signup_message email activity_name)).

(** ** The route table and sequential request processing *)

Inductive Request : Type :=
  | GET_root
  | GET_activities
  | POST_signup (activity_name email : string).

Inductive Body : Type :=
  | Redirect (r : RedirectResponse)
  | ActivitiesBody (acts : Registry)
  | SignupBody (r : SignupResponse).

(** The decorators [@app.get("/")], [@app.get("/activities")] and
    [@app.post("/activities/{activity_name}/signup")]: each request runs the
    handler registered for it. *)
Definition dispatch (req : Request) : Handler.t Body :=
  match req with
  | GET_root => r ← root; mret (Redirect r)
  | GET_activities => acts ← get_activities; mret (ActivitiesBody acts)
  | POST_signup activity_name email =>
      r ← signup_for_activity activity_name email; mret (SignupBody r)
  end.

(** The registry after serving the requests one after the other, whatever
    each of them answered. *)
Definition serve (reqs : list Request) (acts : Registry) : Registry :=
  foldl (λ acts req, Handler.final (dispatch req) acts) acts reqs.

(** A sequence of signup calls, each given as [(activity_name, email)]. *)
Definition signup_calls (calls : list (string * string)) (acts : Registry) : Registry :=
  serve (map (λ c, POST_signup c.1 c.2) calls) acts.

(** ** The invariants of an entry *)

Definition within_capacity (activity : Activity) : Prop :=
  Z.of_nat (length (participants activity)) <= max_participants activity.

Definition distinct_participants (activity : Activity) : Prop :=
  NoDup (participants activity).

(** ** Sample states used by the examples below *)

(** Ten more students join the Chess Club of the seed data, which then has
    its twelve participants. *)
Definition chess_club_newcomers : list (string * string) :=
  (λ email, ("Chess Club", email)) <$>
    ["s01@mergington.edu"; "s02@mergington.edu"; "s03@mergington.edu";
     "s04@mergington.edu"; "s05@mergington.edu"; "s06@mergington.edu";
     "s07@mergington.edu"; "s08@mergington.edu"; "s09@mergington.edu";
     "s10@mergington.edu"].

Definition chess_club_full : Registry :=
  signup_calls chess_club_newcomers activities.

Definition chess_club_full_entry : Activity :=
  mkActivity
    "Learn strategies and compete in chess tournaments"
    "Fridays, 3:30 PM - 5:00 PM"
    12
    ["michael@mergington.edu"; "daniel@mergington.edu";
     "s01@mergington.edu"; "s02@mergington.edu"; "s03@mergington.edu";
     "s04@mergington.edu"; "s05@mergington.edu"; "s06@mergington.edu";
     "s07@mergington.edu"; "s08@mergington.edu"; "s09@mergington.edu";
     "s10@mergington.edu"].

Definition soccer_practice_entry (emails : list string) : Activity :=
  mkActivity
    "Team drills, conditioning, and scrimmages"
    "Tuesdays and Thursdays, 4:00 PM - 5:30 PM"
    22
    emails.

(** ** Reading a run of requests *)

(** The requests that reach [signup_for_activity]; the other two routes only
    read. *)
Definition is_signup (req : Request) : bool :=
  match req with
  | POST_signup _ _ => true
  | _ => false
  end.

(** Whether the request was a signup for the activity [name] that was
    answered with the confirmation message. *)
Definition accepted (name : string) (req : Request) (answer : Exception + Body) : bool :=
  match req, answer with
  | POST_signup activity_name _, inr _ => bool_decide (activity_name = name)
  | _, _ => false
  end.


(** * Properties *)

(** ** What one signup call does, case by case *)

Lemma signup_for_activity_cases activity_name email (acts : Registry) :
  signup_for_activity activity_name email acts =
  match acts !! activity_name with
  | None => (inl (HTTPException 404 "Activity not found"), acts)
  | Some activity =>
      if decide (email ∈ participants activity)
      then (inl (HTTPException 400 "Student is already signed up"), acts)
      else if decide (Z.of_nat (length (participants activity)) >= max_participants activity)
      then (inl (HTTPException 400 "Activity is full"), acts)
      else (inr (mkSignupResponse (signup_message email activity_name)),
            alter (append_participant email) activity_name acts)
  end.
Proof.
  unfold signup_for_activity, getitem, mbind, handler_bind, Handler.bind,
    Handler.global; simpl.
  destruct (acts !! activity_name) as [activity|] eqn:Hlook.
  - rewrite decide_False by done. simpl. rewrite Hlook. simpl.
    repeat case_decide; reflexivity.
  - rewrite decide_True by done. reflexivity.
Qed.

(** A signup that passes the three guards replaces the entry of the named
    activity by the same entry with the email added at the end. *)
Lemma signup_for_activity_accepts activity_name email (acts : Registry) activity :
  acts !! activity_name = Some activity →
  email ∉ participants activity →
  Z.of_nat (length (participants activity)) < max_participants activity →
  signup_for_activity activity_name email acts =
    (inr (mkSignupResponse (signup_message email activity_name)),
     <[activity_name := append_participant email activity]> acts).
Proof.
  intros Hlook Hnew Hroom. rewrite signup_for_activity_cases, Hlook.
  rewrite decide_False by done. rewrite decide_False by lia.
  f_equal. apply map_eq. intros k. rewrite lookup_alter, lookup_insert.
  case_decide; subst; [by rewrite Hlook | done].
Qed.

(** Any call either leaves the registry as it was, or passed the three
    guards. *)
Lemma signup_for_activity_final activity_name email (acts : Registry) :
  Handler.final (signup_for_activity activity_name email) acts = acts ∨
  (∃ activity,
    acts !! activity_name = Some activity ∧
    (email ∉ participants activity) ∧
    Z.of_nat (length (participants activity)) < max_participants activity ∧
    Handler.final (signup_for_activity activity_name email) acts =
      <[activity_name := append_participant email activity]> acts).
Proof.
  unfold Handler.final.
  destruct (acts !! activity_name) as [activity|] eqn:Hlook.
  - destruct (decide (email ∈ participants activity)) as [Hin|Hnew].
    { left. rewrite signup_for_activity_cases, Hlook. by rewrite decide_True. }
    destruct (decide (Z.of_nat (length (participants activity))
                      >= max_participants activity)) as [Hfull|Hroom].
    { left. rewrite signup_for_activity_cases, Hlook.
      rewrite decide_False by done. by rewrite decide_True. }
    right. exists activity. repeat split; [done | lia |].
    rewrite (signup_for_activity_accepts _ _ _ activity) by (done || lia).
    reflexivity.
  - left. by rewrite signup_for_activity_cases, Hlook.
Qed.

Lemma dispatch_final req (acts : Registry) :
  Handler.final (dispatch req) acts =
  match req with
  | POST_signup activity_name email =>
      Handler.final (signup_for_activity activity_name email) acts
  | _ => acts
  end.
Proof.
  destruct req as [| |activity_name email]; try reflexivity.
  unfold Handler.final, dispatch, mbind, handler_bind, Handler.bind.
  by destruct (signup_for_activity activity_name email acts) as [[e|r] acts'].
Qed.

Lemma serve_snoc reqs req (acts : Registry) :
  serve (reqs ++ [req]) acts = Handler.final (dispatch req) (serve reqs acts).
Proof. unfold serve. by rewrite foldl_app. Qed.

(** ** Invariants of the entries, along any sequence of requests *)

Section entry_invariant.

Variable P : Activity → Prop.

Hypothesis P_append :
  ∀ email activity,
    P activity →
    email ∉ participants activity →
    Z.of_nat (length (participants activity)) < max_participants activity →
    P (append_participant email activity).

Lemma signup_for_activity_preserves activity_name email (acts : Registry) :
  map_Forall (λ _, P) acts →
  map_Forall (λ _, P) (Handler.final (signup_for_activity activity_name email) acts).
Proof.
  intros Hinv.
  destruct (signup_for_activity_final activity_name email acts)
    as [-> | (activity & Hlook & Hnew & Hroom & ->)]; [done |].
  apply map_Forall_insert_2; [|done].
  apply P_append; [|done..]. by apply (Hinv activity_name).
Qed.

Lemma serve_preserves reqs (acts : Registry) :
  map_Forall (λ _, P) acts → map_Forall (λ _, P) (serve reqs acts).
Proof.
  intros Hinv. induction reqs as [|req reqs IH] using rev_ind; [done |].
  rewrite serve_snoc, dispatch_final.
  destruct req; auto using signup_for_activity_preserves.
Qed.

End entry_invariant.

Lemma within_capacity_append email activity :
  within_capacity activity →
  email ∉ participants activity →
  Z.of_nat (length (participants activity)) < max_participants activity →
  within_capacity (append_participant email activity).
Proof.
  unfold within_capacity. intros _ _ Hroom. simpl.
  rewrite length_app. simpl. lia.
Qed.

Lemma distinct_participants_append email activity :
  distinct_participants activity →
  email ∉ participants activity →
  Z.of_nat (length (participants activity)) < max_participants activity →
  distinct_participants (append_participant email activity).
Proof.
  unfold distinct_participants. intros Hnodup Hnew _. simpl.
  apply NoDup_app. split_and!; [done | | apply NoDup_singleton].
  intros x Hx ->%list_elem_of_singleton. done.
Qed.

Lemma activities_within_capacity : map_Forall (λ _, within_capacity) activities.
Proof.
  unfold activities.
  repeat (apply map_Forall_insert_2; [unfold within_capacity; simpl; lia |]).
  apply map_Forall_empty.
Qed.

Lemma activities_distinct_participants :
  map_Forall (λ _, distinct_participants) activities.
Proof.
  unfold activities.
  repeat (apply map_Forall_insert_2;
          [unfold distinct_participants; simpl; compute_done |]).
  apply map_Forall_empty.
Qed.

Lemma signup_calls_preserves (P : Activity → Prop) calls :
  (∀ email activity,
      P activity →
      email ∉ participants activity →
      Z.of_nat (length (participants activity)) < max_participants activity →
      P (append_participant email activity)) →
  map_Forall (λ _, P) activities →
  map_Forall (λ _, P) (signup_calls calls activities).
Proof. intros Happend Hseed. by apply serve_preserves. Qed.

(** ** Failures *)

(** A call that raises leaves the dictionary untouched: every [raise] of the
    handler comes before its only mutation. *)
Lemma signup_for_activity_raise_final activity_name email (acts : Registry) e :
  Handler.result (signup_for_activity activity_name email) acts = inl e →
  Handler.final (signup_for_activity activity_name email) acts = acts.
Proof.
  unfold Handler.result, Handler.final. rewrite signup_for_activity_cases.
  destruct (acts !! activity_name) as [activity|]; [|done].
  repeat case_decide; simpl; done.
Qed.


(** ** The set of activity names *)

(** The registry keeps its set of activity names across a signup call. *)
Lemma signup_for_activity_dom activity_name email (acts : Registry) :
  dom (Handler.final (signup_for_activity activity_name email) acts) = dom acts.
Proof.
  unfold Handler.final. rewrite signup_for_activity_cases.
  destruct (acts !! activity_name) as [activity|]; [|done].
  repeat case_decide; simpl; [done..|]. apply dom_alter_L.
Qed.

Lemma serve_dom reqs (acts : Registry) : dom (serve reqs acts) = dom acts.
Proof.
  induction reqs as [|req reqs IH] using rev_ind; [done |].
  rewrite serve_snoc, dispatch_final.
  destruct req; [done..|]. by rewrite signup_for_activity_dom.
Qed.

(** ** The sample states, evaluated *)

Lemma chess_club_full_lookup :
  chess_club_full !! "Chess Club" = Some chess_club_full_entry.
Proof. vm_compute. reflexivity. Qed.

Lemma activities_soccer_practice :
  activities !! "Soccer Practice" = Some (soccer_practice_entry []).
Proof. vm_compute. reflexivity. Qed.

(** * The claims *)

(** C1. For every activity of the registry, the number of participants is at
    most [max_participants]: in the seed data, and after every sequence of
    signup calls started from the seed data.  The bound is kept because a
    signup on an activity whose count has reached [max_participants] raises
    and appends nothing. *)
Theorem capacity_never_exceeded :
  (∀ name activity,
      activities !! name = Some activity →
      Z.of_nat (length (participants activity)) <= max_participants activity) ∧
  (∀ calls name activity,
      signup_calls calls activities !! name = Some activity →
      Z.of_nat (length (participants activity)) <= max_participants activity) ∧
  (∀ (acts : Registry) name email activity,
      acts !! name = Some activity →
      Z.of_nat (length (participants activity)) >= max_participants activity →
      ∃ e, signup_for_activity name email acts = (inl e, acts)).
Proof.
  split_and!.
  - intros name activity Hlook.
    exact (activities_within_capacity name activity Hlook).
  - intros calls name activity Hlook.
    exact (signup_calls_preserves within_capacity calls
             within_capacity_append activities_within_capacity
             name activity Hlook).
  - intros acts name email activity Hlook Hfull.
    rewrite signup_for_activity_cases, Hlook.
    case_decide; [eauto |]. rewrite decide_True by done. eauto.
Qed.

Lemma capacity_never_exceeded_full_chess_club :
  signup_calls (chess_club_newcomers ++ [("Chess Club", "late@mergington.edu")])
      activities !! "Chess Club" = Some chess_club_full_entry ∧
  Z.of_nat (length (participants chess_club_full_entry))
    <= max_participants chess_club_full_entry.
Proof.
  assert (signup_calls
            (chess_club_newcomers ++ [("Chess Club", "late@mergington.edu")])
            activities !! "Chess Club" = Some chess_club_full_entry) as Hlook.
  { vm_compute. reflexivity. }
  split; [exact Hlook |].
  exact (proj1 (proj2 capacity_never_exceeded) _ _ _ Hlook).
Defined.

(** C2. The three guards of a signup are evaluated in the order: the
    activity exists, the email is not yet a participant, the activity has
    room; the first one that fails decides the exception.  An unknown name
    is answered "not found" whatever the email; a known name and an email
    already on the list is answered "already signed up" whatever the count;
    only a new email meets the capacity test.  In particular a duplicate
    signup on a full activity gets the duplicate answer and not the capacity
    one. *)
Theorem signup_guards_in_order activity_name email (acts : Registry) :
  (acts !! activity_name = None →
     Handler.result (signup_for_activity activity_name email) acts =
       inl (HTTPException 404 "Activity not found")) ∧
  (∀ activity,
     acts !! activity_name = Some activity →
     email ∈ participants activity →
     Handler.result (signup_for_activity activity_name email) acts =
       inl (HTTPException 400 "Student is already signed up")) ∧
  (∀ activity,
     acts !! activity_name = Some activity →
     email ∉ participants activity →
     Z.of_nat (length (participants activity)) >= max_participants activity →
     Handler.result (signup_for_activity activity_name email) acts =
       inl (HTTPException 400 "Activity is full")) ∧
  (∀ activity,
     acts !! activity_name = Some activity →
     email ∈ participants activity →
     Z.of_nat (length (participants activity)) >= max_participants activity →
     Handler.result (signup_for_activity activity_name email) acts =
       inl (HTTPException 400 "Student is already signed up") ∧
     Handler.result (signup_for_activity activity_name email) acts ≠
       inl (HTTPException 400 "Activity is full")).
Proof.
  unfold Handler.result. rewrite signup_for_activity_cases.
  split_and!.
  - by intros ->.
  - intros activity -> Hin. by rewrite decide_True.
  - intros activity -> Hnew Hfull.
    rewrite decide_False by done. by rewrite decide_True.
  - intros activity -> Hin Hfull. rewrite decide_True by done.
    split; [reflexivity | discriminate].
Qed.

Lemma signup_guards_in_order_full_chess_club :
  Handler.result (signup_for_activity "Chess Club" "michael@mergington.edu")
      chess_club_full =
    inl (HTTPException 400 "Student is already signed up") ∧
  Handler.result (signup_for_activity "Chess Club" "michael@mergington.edu")
      chess_club_full ≠
    inl (HTTPException 400 "Activity is full").
Proof.
  destruct (signup_guards_in_order "Chess Club" "michael@mergington.edu"
              chess_club_full) as (_ & _ & _ & Hboth).
  apply (Hboth chess_club_full_entry).
  - vm_compute. reflexivity.
  - apply list_elem_of_here.
  - simpl. lia.
Defined.

(** C3. When the activity exists, the email is not yet one of its
    participants and the count is strictly below [max_participants], the
    signup succeeds: it answers the message "Signed up <email> for
    <activity_name>" and the activity's participant list is the old one with
    the email added at its end.  From the seed data,
    signup("Soccer Practice", "ana@mergington.edu") answers
    "Signed up ana@mergington.edu for Soccer Practice" and Soccer Practice
    then has exactly one participant. *)
Theorem signup_success :
  (∀ activity_name email (acts : Registry) activity,
     acts !! activity_name = Some activity →
     email ∉ participants activity →
     Z.of_nat (length (participants activity)) < max_participants activity →
     signup_for_activity activity_name email acts =
       (inr (mkSignupResponse
               (String.append "Signed up "
                  (String.append email (String.append " for " activity_name)))),
        <[activity_name :=
            mkActivity (description activity) (schedule activity)
                       (max_participants activity)
                       (participants activity ++ [email])]> acts)) ∧
  Handler.result (signup_for_activity "Soccer Practice" "ana@mergington.edu")
      activities =
    inr (mkSignupResponse "Signed up ana@mergington.edu for Soccer Practice") ∧
  participants <$>
    Handler.final (signup_for_activity "Soccer Practice" "ana@mergington.edu")
      activities !! "Soccer Practice" =
    Some ["ana@mergington.edu"].
Proof.
  split_and!.
  - intros activity_name email acts activity Hlook Hnew Hroom.
    exact (signup_for_activity_accepts _ _ _ _ Hlook Hnew Hroom).
  - vm_compute. reflexivity.
  - vm_compute. reflexivity.
Qed.

(** The second student to join Soccer Practice comes after the first. *)
Lemma signup_success_second_student :
  signup_for_activity "Soccer Practice" "ben@mergington.edu"
      (signup_calls [("Soccer Practice", "ana@mergington.edu")] activities) =
    (inr (mkSignupResponse "Signed up ben@mergington.edu for Soccer Practice"),
     <["Soccer Practice" :=
         soccer_practice_entry ["ana@mergington.edu"; "ben@mergington.edu"]]>
       (signup_calls [("Soccer Practice", "ana@mergington.edu")] activities)).
Proof.
  apply (proj1 signup_success "Soccer Practice" "ben@mergington.edu"
           (signup_calls [("Soccer Practice", "ana@mergington.edu")] activities)
           (soccer_practice_entry ["ana@mergington.edu"])).
  - vm_compute. reflexivity.
  - compute_done.
  - simpl. lia.
Defined.

(** C4. A signup that fails is atomic: whatever it raised ("not found",
    "already signed up" or "full"), the registry after the call is the
    registry before it, and so are the participant list of the targeted
    activity and its length. *)
Theorem failed_signup_changes_nothing activity_name email (acts : Registry) e :
  Handler.result (signup_for_activity activity_name email) acts = inl e →
  Handler.final (signup_for_activity activity_name email) acts = acts ∧
  participants <$>
    Handler.final (signup_for_activity activity_name email) acts !! activity_name =
    participants <$> acts !! activity_name ∧
  length ∘ participants <$>
    Handler.final (signup_for_activity activity_name email) acts !! activity_name =
    length ∘ participants <$> acts !! activity_name.
Proof.
  intros Hraise.
  rewrite (signup_for_activity_raise_final _ _ _ _ Hraise). done.
Qed.

Lemma failed_signup_changes_nothing_unknown_activity :
  Handler.result (signup_for_activity "Robotics Club" "x@mergington.edu")
      activities = inl (HTTPException 404 "Activity not found") ∧
  Handler.final (signup_for_activity "Robotics Club" "x@mergington.edu")
      activities = activities.
Proof.
  assert (Handler.result (signup_for_activity "Robotics Club" "x@mergington.edu")
            activities = inl (HTTPException 404 "Activity not found")) as Hraise.
  { vm_compute. reflexivity. }
  split; [exact Hraise |].
  exact (proj1 (failed_signup_changes_nothing _ _ _ _ Hraise)).
Defined.

(** C5. No email occurs twice in the participant list of an activity: this
    holds of the seed data, every signup call keeps it (an email already on
    the list is refused before anything is appended), and so it holds after
    every sequence of signup calls. *)
Theorem participants_never_repeat :
  (∀ name activity,
      activities !! name = Some activity → NoDup (participants activity)) ∧
  (∀ (acts : Registry) activity_name email,
      (∀ name activity,
          acts !! name = Some activity → NoDup (participants activity)) →
      ∀ name activity,
        Handler.final (signup_for_activity activity_name email) acts !! name
          = Some activity →
        NoDup (participants activity)) ∧
  (∀ calls name activity,
      signup_calls calls activities !! name = Some activity →
      NoDup (participants activity)).
Proof.
  split_and!.
  - intros name activity Hlook.
    exact (activities_distinct_participants name activity Hlook).
  - intros acts activity_name email Hinv name activity Hlook.
    exact (signup_for_activity_preserves distinct_participants
             distinct_participants_append activity_name email acts Hinv
             name activity Hlook).
  - intros calls name activity Hlook.
    exact (signup_calls_preserves distinct_participants calls
             distinct_participants_append activities_distinct_participants
             name activity Hlook).
Qed.

Lemma participants_never_repeat_same_call_twice :
  signup_calls [("Soccer Practice", "ana@mergington.edu");
                ("Soccer Practice", "ana@mergington.edu")] activities
      !! "Soccer Practice" = Some (soccer_practice_entry ["ana@mergington.edu"]) ∧
  NoDup (participants (soccer_practice_entry ["ana@mergington.edu"])).
Proof.
  assert (signup_calls [("Soccer Practice", "ana@mergington.edu");
                        ("Soccer Practice", "ana@mergington.edu")] activities
            !! "Soccer Practice"
          = Some (soccer_practice_entry ["ana@mergington.edu"])) as Hlook.
  { vm_compute. reflexivity. }
  split; [exact Hlook |].
  exact (proj2 (proj2 participants_never_repeat) _ _ _ Hlook).
Defined.

(** C6, as the code has it.  A signup fails with exactly one of three
    exceptions, each with the status code and detail of its cause: 404
    "Activity not found" when the name is unknown; 400 "Student is already
    signed up" when the email is on the activity's list; 400 "Activity is
    full" (with a capital A) when the email is new and the count has reached
    [max_participants]. *)
Theorem signup_failure_details activity_name email (acts : Registry) e :
  Handler.result (signup_for_activity activity_name email) acts = inl e ↔
  (acts !! activity_name = None ∧
     e = HTTPException 404 "Activity not found") ∨
  (∃ activity,
     acts !! activity_name = Some activity ∧
     email ∈ participants activity ∧
     e = HTTPException 400 "Student is already signed up") ∨
  (∃ activity,
     acts !! activity_name = Some activity ∧
     (email ∉ participants activity) ∧
     Z.of_nat (length (participants activity)) >= max_participants activity ∧
     e = HTTPException 400 "Activity is full").
Proof.
  unfold Handler.result. rewrite signup_for_activity_cases.
  destruct (acts !! activity_name) as [activity|] eqn:Hlook; simpl.
  - destruct (decide (email ∈ participants activity)) as [Hin|Hnew];
      [|destruct (decide (Z.of_nat (length (participants activity))
                          >= max_participants activity)) as [Hfull|Hroom]];
      simpl; split.
    + intros [= <-]. right. left. by exists activity.
    + intros [[? _]|[(a & [= <-] & _ & ->)|(a & [= <-] & Hnew & _)]]; done.
    + intros [= <-]. right. right. by exists activity.
    + intros [[? _]|[(a & [= <-] & Hin & _)|(a & [= <-] & _ & _ & ->)]]; done.
    + done.
    + intros [[? _]|[(a & [= <-] & Hin & _)|(a & [= <-] & _ & Hfull & _)]]; done.
  - split.
    + intros [= <-]. by left.
    + intros [[_ ->]|[(a & ? & _)|(a & ? & _)]]; done.
Qed.

Lemma signup_failure_details_scenarios :
  Handler.result (signup_for_activity "Robotics Club" "x@mergington.edu")
      activities = inl (HTTPException 404 "Activity not found") ∧
  Handler.result (signup_for_activity "Chess Club" "michael@mergington.edu")
      activities = inl (HTTPException 400 "Student is already signed up") ∧
  Handler.result (signup_for_activity "Chess Club" "late@mergington.edu")
      chess_club_full = inl (HTTPException 400 "Activity is full").
Proof.
  split_and!.
  - apply (proj2 (signup_failure_details "Robotics Club" "x@mergington.edu"
                    activities (HTTPException 404 "Activity not found"))).
    left. split; [vm_compute|]; reflexivity.
  - apply (proj2 (signup_failure_details "Chess Club" "michael@mergington.edu"
                    activities
                    (HTTPException 400 "Student is already signed up"))).
    right. left.
    exists (mkActivity
              "Learn strategies and compete in chess tournaments"
              "Fridays, 3:30 PM - 5:00 PM"
              12 ["michael@mergington.edu"; "daniel@mergington.edu"]).
    split_and!; [vm_compute; reflexivity | apply list_elem_of_here | reflexivity].
  - apply (proj2 (signup_failure_details "Chess Club" "late@mergington.edu"
                    chess_club_full (HTTPException 400 "Activity is full"))).
    right. right. exists chess_club_full_entry.
    split_and!; [vm_compute; reflexivity | compute_done | simpl; lia | reflexivity].
Defined.

(** C6, as stated, fails on a full activity: one more signup on the full
    Chess Club is refused with the detail "Activity is full", which is not
    the string "activity is full". *)
Lemma signup_full_detail_not_lowercase :
  chess_club_full !! "Chess Club" = Some chess_club_full_entry ∧
  Z.of_nat (length (participants chess_club_full_entry))
    = max_participants chess_club_full_entry ∧
  Handler.result (signup_for_activity "Chess Club" "late@mergington.edu")
      chess_club_full = inl (HTTPException 400 "Activity is full") ∧
  Handler.result (signup_for_activity "Chess Club" "late@mergington.edu")
      chess_club_full ≠ inl (HTTPException 400 "activity is full").
Proof.
  assert (Handler.result (signup_for_activity "Chess Club" "late@mergington.edu")
            chess_club_full = inl (HTTPException 400 "Activity is full")) as Hfull.
  { vm_compute. reflexivity. }
  split_and!; [vm_compute; reflexivity | reflexivity | exact Hfull |].
  rewrite Hfull. discriminate.
Qed.

(** C7. A successful signup(activity_name, email) changes the participant
    list of the activity named [activity_name] and nothing else: every other
    entry is the same, the named entry keeps its description, schedule and
    [max_participants], and the set of activity names is the same.  No
    request, and no sequence of requests, adds an activity to the registry
    or removes one from it. *)
Theorem signup_changes_one_list_only :
  (∀ activity_name email (acts : Registry) r,
     Handler.result (signup_for_activity activity_name email) acts = inr r →
     (∀ other,
        other ≠ activity_name →
        Handler.final (signup_for_activity activity_name email) acts !! other
          = acts !! other) ∧
     (∃ activity activity',
        acts !! activity_name = Some activity ∧
        Handler.final (signup_for_activity activity_name email) acts
          !! activity_name = Some activity' ∧
        description activity' = description activity ∧
        schedule activity' = schedule activity ∧
        max_participants activity' = max_participants activity ∧
        participants activity' = participants activity ++ [email])) ∧
  (∀ req (acts : Registry),
     dom (Handler.final (dispatch req) acts) = dom acts) ∧
  (∀ reqs, dom (serve reqs activities) = dom activities).
Proof.
  split_and!.
  - intros activity_name email acts r.
    unfold Handler.result, Handler.final. rewrite signup_for_activity_cases.
    destruct (acts !! activity_name) as [activity|] eqn:Hlook; [|done].
    repeat case_decide; simpl; [done..|]. intros _. split.
    + intros other Hother. by rewrite lookup_alter_ne.
    + exists activity, (append_participant email activity).
      rewrite lookup_alter_eq, Hlook. done.
  - intros req acts. rewrite dispatch_final.
    destruct req; [done..|]. apply signup_for_activity_dom.
  - intros reqs. apply serve_dom.
Qed.

Lemma signup_changes_one_list_only_soccer :
  Handler.result (signup_for_activity "Soccer Practice" "ana@mergington.edu")
      activities =
    inr (mkSignupResponse "Signed up ana@mergington.edu for Soccer Practice") ∧
  Handler.final (signup_for_activity "Soccer Practice" "ana@mergington.edu")
      activities !! "Chess Club" = activities !! "Chess Club".
Proof.
  assert (Handler.result
            (signup_for_activity "Soccer Practice" "ana@mergington.edu")
            activities =
          inr (mkSignupResponse
                 "Signed up ana@mergington.edu for Soccer Practice")) as Hok.
  { vm_compute. reflexivity. }
  split; [exact Hok |].
  apply (proj1 (proj1 signup_changes_one_list_only _ _ _ _ Hok)).
  discriminate.
Defined.

(** C8. [get_activities] answers the registry itself, that is all the
    activities with their current participants; it raises nothing and
    leaves the registry as it was, in every state. *)
Theorem get_activities_read_only (acts : Registry) :
  Handler.result get_activities acts = inr acts ∧
  Handler.final get_activities acts = acts ∧
  dispatch GET_activities acts = (inr (ActivitiesBody acts), acts).
Proof. split_and!; reflexivity. Qed.

(** C9. A signup reads and writes the entry of [activity_name] only.  In two
    registries that agree on that entry (or both lack it) the call gives the
    same answer and leaves the same entry behind.  In particular an email
    that is a participant of another activity is accepted when the named
    activity does not list it and has room. *)
Theorem signup_depends_on_named_entry_only :
  (∀ activity_name email (acts1 acts2 : Registry),
     acts1 !! activity_name = acts2 !! activity_name →
     Handler.result (signup_for_activity activity_name email) acts1 =
       Handler.result (signup_for_activity activity_name email) acts2 ∧
     Handler.final (signup_for_activity activity_name email) acts1
         !! activity_name =
       Handler.final (signup_for_activity activity_name email) acts2
         !! activity_name) ∧
  (∀ activity_name email (acts : Registry) activity other other_activity,
     other ≠ activity_name →
     acts !! other = Some other_activity →
     email ∈ participants other_activity →
     acts !! activity_name = Some activity →
     email ∉ participants activity →
     Z.of_nat (length (participants activity)) < max_participants activity →
     Handler.result (signup_for_activity activity_name email) acts =
       inr (mkSignupResponse (signup_message email activity_name)) ∧
     participants <$>
       Handler.final (signup_for_activity activity_name email) acts
         !! activity_name = Some (participants activity ++ [email])).
Proof.
  split.
  - intros activity_name email acts1 acts2 Hagree.
    unfold Handler.result, Handler.final.
    rewrite !signup_for_activity_cases, <- Hagree.
    destruct (acts1 !! activity_name) as [activity|] eqn:Hlook.
    + repeat case_decide; simpl; [by rewrite Hlook, Hagree..|].
      split; [done |]. by rewrite !lookup_alter_eq, <- Hagree, Hlook.
    + simpl. by rewrite Hlook, Hagree.
  - intros activity_name email acts activity other other_activity
      _ _ _ Hlook Hnew Hroom.
    unfold Handler.result, Handler.final.
    rewrite (signup_for_activity_accepts _ _ _ _ Hlook Hnew Hroom). simpl.
    by rewrite lookup_insert_eq.
Qed.

Lemma signup_depends_on_named_entry_only_michael :
  Handler.result (signup_for_activity "Soccer Practice" "michael@mergington.edu")
      activities =
    inr (mkSignupResponse
           (signup_message "michael@mergington.edu" "Soccer Practice")) ∧
  participants <$>
    Handler.final (signup_for_activity "Soccer Practice" "michael@mergington.edu")
      activities !! "Soccer Practice" = Some ([] ++ ["michael@mergington.edu"]).
Proof.
  apply (proj2 signup_depends_on_named_entry_only
           "Soccer Practice" "michael@mergington.edu" activities
           (soccer_practice_entry []) "Chess Club"
           (mkActivity
              "Learn strategies and compete in chess tournaments"
              "Fridays, 3:30 PM - 5:00 PM"
              12 ["michael@mergington.edu"; "daniel@mergington.edu"])).
  - discriminate.
  - vm_compute. reflexivity.
  - apply list_elem_of_here.
  - vm_compute. reflexivity.
  - compute_done.
  - simpl. lia.
Defined.

(** C10. The handler puts no condition on what the email string looks like.
    For an activity with room and any string not yet on its list, the empty
    string and strings that are no email address included, the signup
    succeeds and appends that very string. *)
Theorem signup_accepts_any_string activity_name (e : string) (acts : Registry) activity :
  acts !! activity_name = Some activity →
  Z.of_nat (length (participants activity)) < max_participants activity →
  e ∉ participants activity →
  Handler.result (signup_for_activity activity_name e) acts =
    inr (mkSignupResponse (signup_message e activity_name)) ∧
  participants <$>
    Handler.final (signup_for_activity activity_name e) acts !! activity_name =
    Some (participants activity ++ [e]).
Proof.
  intros Hlook Hroom Hnew. unfold Handler.result, Handler.final.
  rewrite (signup_for_activity_accepts _ _ _ _ Hlook Hnew Hroom). simpl.
  by rewrite lookup_insert_eq.
Qed.

Lemma signup_accepts_any_string_empty_and_odd :
  (Handler.result (signup_for_activity "Soccer Practice" "") activities =
     inr (mkSignupResponse (signup_message "" "Soccer Practice")) ∧
   participants <$>
     Handler.final (signup_for_activity "Soccer Practice" "") activities
       !! "Soccer Practice" = Some ([] ++ [""])) ∧
  (Handler.result (signup_for_activity "Soccer Practice" "not an email")
       activities =
     inr (mkSignupResponse (signup_message "not an email" "Soccer Practice")) ∧
   participants <$>
     Handler.final (signup_for_activity "Soccer Practice" "not an email")
       activities !! "Soccer Practice" = Some ([] ++ ["not an email"])).
Proof.
  split.
  - apply (signup_accepts_any_string "Soccer Practice" "" activities
             (soccer_practice_entry []));
      [vm_compute; reflexivity | simpl; lia | compute_done].
  - apply (signup_accepts_any_string "Soccer Practice" "not an email" activities
             (soccer_practice_entry []));
      [vm_compute; reflexivity | simpl; lia | compute_done].
Defined.

(** * Further properties of the handlers *)

(** ** Shared facts *)

Lemma serve_cons req reqs (acts : Registry) :
  serve (req :: reqs) acts = serve reqs (Handler.final (dispatch req) acts).
Proof. reflexivity. Qed.

Lemma dispatch_result req (acts : Registry) :
  Handler.result (dispatch req) acts =
  match req with
  | GET_root => inr (Redirect (mkRedirectResponse "/static/index.html"))
  | GET_activities => inr (ActivitiesBody acts)
  | POST_signup activity_name email =>
      match Handler.result (signup_for_activity activity_name email) acts with
      | inl e => inl e
      | inr r => inr (SignupBody r)
      end
  end.
Proof.
  destruct req as [| |activity_name email]; try reflexivity.
  unfold Handler.result, dispatch, mbind, handler_bind, Handler.bind.
  by destruct (signup_for_activity activity_name email acts) as [[e|r] acts'].
Qed.

(** A call that answers with the confirmation passed the three guards. *)
Lemma signup_for_activity_inr activity_name email (acts : Registry) r :
  Handler.result (signup_for_activity activity_name email) acts = inr r →
  ∃ activity,
    acts !! activity_name = Some activity ∧
    (email ∉ participants activity) ∧
    Z.of_nat (length (participants activity)) < max_participants activity.
Proof.
  unfold Handler.result. rewrite signup_for_activity_cases.
  destruct (acts !! activity_name) as [activity|]; [|done].
  destruct (decide (email ∈ participants activity)) as [Hin|Hnew]; [done |].
  destruct (decide (Z.of_nat (length (participants activity))
                    >= max_participants activity)) as [Hfull|Hroom]; [done |].
  intros _. exists activity. split_and!; [done.. | lia].
Qed.

(** What a request does to the entry of one activity: nothing, or it is an
    accepted signup for that activity and the email goes at the end. *)
Lemma dispatch_entry req (acts : Registry) name activity :
  acts !! name = Some activity →
  (accepted name req (Handler.result (dispatch req) acts) = false ∧
   Handler.final (dispatch req) acts !! name = Some activity) ∨
  (accepted name req (Handler.result (dispatch req) acts) = true ∧
   ∃ email,
     (email ∉ participants activity) ∧
     Z.of_nat (length (participants activity)) < max_participants activity ∧
     Handler.final (dispatch req) acts !! name
       = Some (append_participant email activity)).
Proof.
  intros Hlook. rewrite dispatch_result, dispatch_final.
  destruct req as [| |activity_name email]; [by left..|].
  destruct (Handler.result (signup_for_activity activity_name email) acts)
    as [e|r] eqn:Hres.
  - left. by rewrite (signup_for_activity_raise_final _ _ _ _ Hres).
  - destruct (signup_for_activity_inr _ _ _ _ Hres) as (a & Ha & Hnew & Hroom).
    unfold Handler.final.
    rewrite (signup_for_activity_accepts _ _ _ _ Ha Hnew Hroom). simpl.
    destruct (decide (activity_name = name)) as [->|Hne].
    + right. rewrite bool_decide_eq_true_2 by done. split; [done |].
      assert (a = activity) as -> by congruence.
      exists email. by rewrite lookup_insert_eq.
    + left. rewrite bool_decide_eq_false_2 by done.
      by rewrite lookup_insert_ne.
Qed.

(** Along any run of requests an entry keeps its three fixed fields, and
    its participant list is the old one followed by the newcomers. *)
Lemma serve_entry reqs (acts : Registry) name activity :
  acts !! name = Some activity →
  ∃ newcomers,
    serve reqs acts !! name =
      Some (mkActivity (description activity) (schedule activity)
              (max_participants activity)
              (participants activity ++ newcomers)).
Proof.
  revert acts activity.
  induction reqs as [|req reqs IH]; intros acts activity Hlook.
  - exists []. rewrite app_nil_r. by destruct activity.
  - rewrite serve_cons.
    destruct (dispatch_entry req acts name activity Hlook)
      as [[_ Hsame]|[_ (email & _ & _ & Hnext)]].
    + by apply IH.
    + destruct (IH _ _ Hnext) as [newcomers Hserve].
      exists (email :: newcomers). rewrite Hserve. simpl.
      by rewrite <- app_assoc.
Qed.

(** Two registries that agree on the entry of [activity_name] get the same
    answer and take the same branch of the handler. *)
Lemma signup_for_activity_agree activity_name email (acts1 acts2 : Registry) :
  acts1 !! activity_name = acts2 !! activity_name →
  Handler.result (signup_for_activity activity_name email) acts1 =
    Handler.result (signup_for_activity activity_name email) acts2 ∧
  ((Handler.final (signup_for_activity activity_name email) acts1 = acts1 ∧
    Handler.final (signup_for_activity activity_name email) acts2 = acts2) ∨
   (Handler.final (signup_for_activity activity_name email) acts1 =
      alter (append_participant email) activity_name acts1 ∧
    Handler.final (signup_for_activity activity_name email) acts2 =
      alter (append_participant email) activity_name acts2)).
Proof.
  intros Hagree. unfold Handler.result, Handler.final.
  rewrite !signup_for_activity_cases, <- Hagree.
  destruct (acts1 !! activity_name) as [activity|]; [|split; [done | by left]].
  repeat case_decide; simpl; (split; [done |]); (by left) || (by right).
Qed.

Lemma alter_append_commute name1 email1 name2 email2 (acts : Registry) :
  name1 ≠ name2 →
  alter (append_participant email2) name2
    (alter (append_participant email1) name1 acts) =
  alter (append_participant email1) name1
    (alter (append_participant email2) name2 acts).
Proof.
  intros Hne. apply map_eq. intros k. rewrite !lookup_alter.
  repeat case_decide; subst; done.
Qed.

(** ** The extras *)

(** X1. Participant lists only grow.  Whatever requests are served, an
    activity that is in the registry is still there with the same
    description, schedule and [max_participants], and its earlier participant
    list is a prefix of the later one: nobody is removed or reordered. *)
Theorem participants_only_grow reqs (acts : Registry) name activity :
  acts !! name = Some activity →
  ∃ activity',
    serve reqs acts !! name = Some activity' ∧
    description activity' = description activity ∧
    schedule activity' = schedule activity ∧
    max_participants activity' = max_participants activity ∧
    participants activity `prefix_of` participants activity'.
Proof.
  intros Hlook. destruct (serve_entry reqs acts name activity Hlook)
    as [newcomers Hserve].
  eexists. split; [exact Hserve |]. simpl. split_and!; [done.. |].
  by exists newcomers.
Qed.

Lemma participants_only_grow_chess_club :
  ∃ activity',
    serve [POST_signup "Chess Club" "late@mergington.edu"; GET_activities;
           POST_signup "Chess Club" "michael@mergington.edu"] activities
      !! "Chess Club" = Some activity' ∧
    description activity' = "Learn strategies and compete in chess tournaments" ∧
    schedule activity' = "Fridays, 3:30 PM - 5:00 PM" ∧
    max_participants activity' = 12 ∧
    ["michael@mergington.edu"; "daniel@mergington.edu"]
      `prefix_of` participants activity'.
Proof.
  apply (participants_only_grow
           [POST_signup "Chess Club" "late@mergington.edu"; GET_activities;
            POST_signup "Chess Club" "michael@mergington.edu"]
           activities "Chess Club"
           (mkActivity
              "Learn strategies and compete in chess tournaments"
              "Fridays, 3:30 PM - 5:00 PM"
              12 ["michael@mergington.edu"; "daniel@mergington.edu"])).
  vm_compute. reflexivity.
Defined.

(** X2. Once a signup has been accepted, the same email can never join the
    same activity again: after any further requests, repeating the call
    raises 400 "Student is already signed up" and changes nothing. *)
Theorem signed_up_student_is_rejected_again activity_name email (acts : Registry) r reqs :
  Handler.result (signup_for_activity activity_name email) acts = inr r →
  signup_for_activity activity_name email
      (serve reqs (Handler.final (signup_for_activity activity_name email) acts)) =
    (inl (HTTPException 400 "Student is already signed up"),
     serve reqs (Handler.final (signup_for_activity activity_name email) acts)).
Proof.
  intros Hres.
  destruct (signup_for_activity_inr _ _ _ _ Hres) as (a & Ha & Hnew & Hroom).
  unfold Handler.final at 1 2.
  rewrite (signup_for_activity_accepts _ _ _ _ Ha Hnew Hroom). simpl.
  destruct (serve_entry reqs
              (<[activity_name := append_participant email a]> acts)
              activity_name (append_participant email a))
    as [newcomers Hserve]; [by rewrite lookup_insert_eq |].
  rewrite signup_for_activity_cases, Hserve. simpl.
  rewrite decide_True; [done |].
  rewrite !elem_of_app, list_elem_of_singleton. auto.
Qed.

Lemma signed_up_student_is_rejected_again_ana :
  signup_for_activity "Soccer Practice" "ana@mergington.edu"
      (serve [POST_signup "Soccer Practice" "ben@mergington.edu"; GET_root]
         (Handler.final
            (signup_for_activity "Soccer Practice" "ana@mergington.edu")
            activities)) =
    (inl (HTTPException 400 "Student is already signed up"),
     serve [POST_signup "Soccer Practice" "ben@mergington.edu"; GET_root]
       (Handler.final
          (signup_for_activity "Soccer Practice" "ana@mergington.edu")
          activities)).
Proof.
  apply (signed_up_student_is_rejected_again
           "Soccer Practice" "ana@mergington.edu" activities
           (mkSignupResponse "Signed up ana@mergington.edu for Soccer Practice")
           [POST_signup "Soccer Practice" "ben@mergington.edu"; GET_root]).
  vm_compute. reflexivity.
Defined.

(** X3. Signups for two different activities do not interfere: each gets
    the answer it would get alone, and the registry after both is the same
    in either order. *)
Theorem signups_for_different_activities_commute
    name1 email1 name2 email2 (acts : Registry) :
  name1 ≠ name2 →
  Handler.result (signup_for_activity name2 email2)
      (Handler.final (signup_for_activity name1 email1) acts) =
    Handler.result (signup_for_activity name2 email2) acts ∧
  Handler.result (signup_for_activity name1 email1)
      (Handler.final (signup_for_activity name2 email2) acts) =
    Handler.result (signup_for_activity name1 email1) acts ∧
  Handler.final (signup_for_activity name2 email2)
      (Handler.final (signup_for_activity name1 email1) acts) =
    Handler.final (signup_for_activity name1 email1)
      (Handler.final (signup_for_activity name2 email2) acts).
Proof.
  intros Hne.
  assert (Handler.final (signup_for_activity name1 email1) acts !! name2
          = acts !! name2) as Hfar1.
  { destruct (signup_for_activity_agree name1 email1 acts acts eq_refl)
      as [_ [[-> _]|[-> _]]]; [done | by rewrite lookup_alter_ne]. }
  assert (Handler.final (signup_for_activity name2 email2) acts !! name1
          = acts !! name1) as Hfar2.
  { destruct (signup_for_activity_agree name2 email2 acts acts eq_refl)
      as [_ [[-> _]|[-> _]]]; [done | by rewrite lookup_alter_ne]. }
  destruct (signup_for_activity_agree name2 email2 _ _ Hfar1) as [Hres2 Hfin2].
  destruct (signup_for_activity_agree name1 email1 _ _ Hfar2) as [Hres1 Hfin1].
  split_and!; [done.. |].
  destruct Hfin2 as [[-> E2]|[-> E2]], Hfin1 as [[-> E1]|[-> E1]];
    rewrite ?E1, ?E2; try done.
  by apply alter_append_commute.
Qed.

Lemma signups_for_different_activities_commute_soccer_chess :
  Handler.result (signup_for_activity "Chess Club" "ana@mergington.edu")
      (Handler.final (signup_for_activity "Soccer Practice" "ana@mergington.edu")
         activities) =
    Handler.result (signup_for_activity "Chess Club" "ana@mergington.edu")
      activities ∧
  Handler.result (signup_for_activity "Soccer Practice" "ana@mergington.edu")
      (Handler.final (signup_for_activity "Chess Club" "ana@mergington.edu")
         activities) =
    Handler.result (signup_for_activity "Soccer Practice" "ana@mergington.edu")
      activities ∧
  Handler.final (signup_for_activity "Chess Club" "ana@mergington.edu")
      (Handler.final (signup_for_activity "Soccer Practice" "ana@mergington.edu")
         activities) =
    Handler.final (signup_for_activity "Soccer Practice" "ana@mergington.edu")
      (Handler.final (signup_for_activity "Chess Club" "ana@mergington.edu")
         activities).
Proof.
  apply (signups_for_different_activities_commute
           "Soccer Practice" "ana@mergington.edu"
           "Chess Club" "ana@mergington.edu" activities).
  discriminate.
Defined.

(** X4. A full activity is frozen: once the number of participants has
    reached [max_participants] (or the limit is zero or negative), no run of
    requests changes its entry any more. *)
Theorem full_activity_is_frozen reqs (acts : Registry) name activity :
  acts !! name = Some activity →
  Z.of_nat (length (participants activity)) >= max_participants activity →
  serve reqs acts !! name = Some activity.
Proof.
  intros Hlook Hfull. revert acts Hlook.
  induction reqs as [|req reqs IH]; intros acts Hlook; [done |].
  rewrite serve_cons. apply IH.
  destruct (dispatch_entry req acts name activity Hlook)
    as [[_ Hsame]|[_ (email & _ & Hroom & _)]]; [done | lia].
Qed.

Lemma full_activity_is_frozen_chess_club :
  serve [POST_signup "Chess Club" "late@mergington.edu"; GET_activities;
         POST_signup "Chess Club" ""] chess_club_full !! "Chess Club"
    = Some chess_club_full_entry.
Proof.
  apply (full_activity_is_frozen
           [POST_signup "Chess Club" "late@mergington.edu"; GET_activities;
            POST_signup "Chess Club" ""]
           chess_club_full "Chess Club" chess_club_full_entry).
  - vm_compute. reflexivity.
  - simpl. lia.
Defined.

(** X5. The two GET routes only read: each answers without raising and
    leaves the registry as it is, so dropping every GET request from a run
    of requests does not change the registry the run ends in. *)
Theorem read_requests_do_not_matter reqs (acts : Registry) :
  serve reqs acts = serve (filter (λ req, is_signup req) reqs) acts ∧
  (∀ req, is_signup req = false → ∃ body, dispatch req acts = (inr body, acts)).
Proof.
  split.
  - revert acts. induction reqs as [|req reqs IH]; intros acts; [done |].
    rewrite serve_cons, IH, dispatch_final.
    destruct req as [| |activity_name email].
    + by rewrite filter_cons_False by (simpl; auto).
    + by rewrite filter_cons_False by (simpl; auto).
    + rewrite filter_cons_True by done.
      by rewrite serve_cons, dispatch_final.
  - intros [| |activity_name email] Hread; [by eexists.. | done].
Qed.



(** X7. The duplicate test compares the strings as they are.  Two emails
    that differ as strings, be it only in the case of a letter, both join an
    activity that has two free seats, and they are listed in the order of
    the calls. *)
Theorem two_distinct_emails_both_join name email1 email2 (acts : Registry) activity :
  acts !! name = Some activity →
  email1 ≠ email2 →
  email1 ∉ participants activity →
  email2 ∉ participants activity →
  Z.of_nat (length (participants activity)) + 2 <= max_participants activity →
  signup_calls [(name, email1); (name, email2)] acts !! name =
    Some (mkActivity (description activity) (schedule activity)
            (max_participants activity)
            (participants activity ++ [email1; email2])).
Proof.
  intros Hlook Hne Hnew1 Hnew2 Hroom.
  change (signup_calls [(name, email1); (name, email2)] acts)
    with (serve [POST_signup name email1; POST_signup name email2] acts).
  rewrite !serve_cons, !dispatch_final.
  change (serve [] ?m) with m. unfold Handler.final.
  rewrite (signup_for_activity_accepts _ _ _ _ Hlook Hnew1) by lia. simpl.
  rewrite (signup_for_activity_accepts name email2 _
             (append_participant email1 activity)).
  - simpl. rewrite lookup_insert_eq. unfold append_participant. simpl.
    by rewrite <- app_assoc.
  - by rewrite lookup_insert_eq.
  - simpl. rewrite elem_of_app, list_elem_of_singleton. intros [?|?]; done.
  - simpl. rewrite length_app. simpl. lia.
Qed.

Lemma two_distinct_emails_both_join_letter_case :
  signup_calls [("Soccer Practice", "Ana@mergington.edu");
                ("Soccer Practice", "ana@mergington.edu")] activities
      !! "Soccer Practice" =
    Some (mkActivity
            "Team drills, conditioning, and scrimmages"
            "Tuesdays and Thursdays, 4:00 PM - 5:30 PM"
            22
            ([] ++ ["Ana@mergington.edu"; "ana@mergington.edu"])).
Proof.
  apply (two_distinct_emails_both_join
           "Soccer Practice" "Ana@mergington.edu" "ana@mergington.edu"
           activities (soccer_practice_entry [])).
  - vm_compute. reflexivity.
  - discriminate.
  - compute_done.
  - compute_done.
  - simpl. lia.
Defined.


